(** * A shallow embedding of the in-memory banking service (src/main.py)

    The service keeps one process-wide dictionary [users] from account
    names to account dictionaries [{"pin": int, "bank_balance": float}] and
    exposes four request handlers: [get_users], [deposit], [authenticate]
    and [bank_transfer].

    - Python [float] is IEEE-754 binary64: Rocq's primitive [float], whose
      operations are specified by [SpecFloat] at precision 53.
    - Python [int] is [Z]; Python [str] is [string].
    - The dictionary [users] is a [gmap string Account].  Every account
      dictionary is stored under exactly one key and no handler re-binds a
      key, so the key serves as the reference to the account object: reads
      and in-place updates through a Python variable holding the object
      ([user], [sender], [recipient]) go through the store at that key.
    - A handler is a function of the store that gives back a result, either
      the returned value or the raised exception, and the store it leaves
      behind.  A raised exception does not roll anything back. *)

From Stdlib Require Import ZArith Lia Floats.
From stdpp Require Import gmap strings.

Local Open Scope string_scope.
Local Open Scope Z_scope.

(** ** Data model *)

(** An account dictionary [{"pin": ..., "bank_balance": ...}].  It always has
    both keys, hence is never empty and always truthy. *)
Record Account := { pin : Z; bank_balance : float }.

Module DepositRequest.
Record t := { name : string; amount_to_deposit : float }.
End DepositRequest.

Module AuthenticateRequest.
Record t := { name : string; pin_number : Z }.
End AuthenticateRequest.

Module BankTransferRequest.
Record t := {
  sender_name : string;
  sender_pin : Z;
  recipients_name : string;
  amount_to_transfer : float
}.
End BankTransferRequest.

(** The dictionary [{"name": n, **account}] that the handlers return. *)
Module UserDetailsResponse.
Record t := { name : string; pin : Z; bank_balance : float }.
End UserDetailsResponse.

(** Exceptions a handler can raise: [HTTPException(status_code, detail)],
    the [KeyError] of a subscript [d[k]] on a missing key, and the
    [TypeError] of a subscript on [None]. *)
Inductive Exception :=
| HTTPException (status_code : Z) (detail : string)
| KeyError (key : string)
| TypeError.

(** The seed content of [users]. *)
Definition users : gmap string Account :=
  <["Ali" := {| pin := 1234; bank_balance := 10000%float |}]>
  (<["Sara" := {| pin := 4321; bank_balance := 15000%float |}]> ∅).

(** ** Handlers as store transformers *)

Definition Handler (A : Type) : Type :=
  gmap string Account → (Exception + A) * gmap string Account.

Definition ret {A} (a : A) : Handler A := λ σ, (inr a, σ).

Definition raise {A} (e : Exception) : Handler A := λ σ, (inl e, σ).

Definition bind {A B} (m : Handler A) (k : A → Handler B) : Handler B :=
  λ σ, match m σ with
       | (inr a, σ') => k a σ'
       | (inl e, σ') => (inl e, σ')
       end.

#[global] Instance handler_ret : MRet Handler := @ret.
#[global] Instance handler_bind : MBind Handler := λ A B k m, bind m k.

(** [users.get(name)]: the account object stored under [name] (that is, its
    key) or [None]. *)
Definition users_get (name : string) : Handler (option string) :=
  λ σ, (inr (match σ !! name with Some _ => Some name | None => None end), σ).

(** [users[name]] *)
Definition users_getitem (name : string) : Handler Account :=
  λ σ, match σ !! name with
       | Some a => (inr a, σ)
       | None => (inl (KeyError name), σ)
       end.

(** The current content of the object held by a variable, as read by
    [obj["pin"]], [obj["bank_balance"]] and [**obj]. *)
Definition deref (obj : option string) : Handler Account :=
  match obj with
  | Some r => users_getitem r
  | None => raise TypeError
  end.

Definition set_bank_balance (b : float) (a : Account) : Account :=
  {| pin := pin a; bank_balance := b |}.

(** [obj["bank_balance"] += x] *)
Definition iadd_bank_balance (obj : option string) (x : float) : Handler unit :=
  match obj with
  | Some r =>
      λ σ, (inr tt,
            alter (λ a, set_bank_balance (bank_balance a + x)%float a) r σ)
  | None => raise TypeError
  end.

(** [obj["bank_balance"] -= x] *)
Definition isub_bank_balance (obj : option string) (x : float) : Handler unit :=
  match obj with
  | Some r =>
      λ σ, (inr tt,
            alter (λ a, set_bank_balance (bank_balance a - x)%float a) r σ)
  | None => raise TypeError
  end.

(** [{"name": n, **obj}] *)
Definition with_name (n : string) (a : Account) : UserDetailsResponse.t :=
  {| UserDetailsResponse.name := n;
     UserDetailsResponse.pin := pin a;
     UserDetailsResponse.bank_balance := bank_balance a |}.

(** ** The source functions *)

Definition _authenticate_user (name : string) (p : Z) : Handler bool :=
  user ← users_get name;
  match user with
  | Some _ =>
      u ← deref user;
      if (pin u =? p)%Z then mret true else mret false
  | None => mret false
  end.

Definition get_users : Handler (gmap string Account) :=
  λ σ, (inr σ, σ).

Definition deposit (request : DepositRequest.t) : Handler UserDetailsResponse.t :=
  user ← users_get (DepositRequest.name request);
  match user with
  | None =>
      raise (HTTPException 404
               ("User '" ++ DepositRequest.name request ++ "' not found."))
  | Some _ =>
      if (DepositRequest.amount_to_deposit request <=? 0)%float then
        raise (HTTPException 400 "Deposit amount must be positive.")
      else
        iadd_bank_balance user (DepositRequest.amount_to_deposit request);;
        u ← deref user;
        mret (with_name (DepositRequest.name request) u)
  end.

Definition authenticate (request : AuthenticateRequest.t)
  : Handler UserDetailsResponse.t :=
  ok ← _authenticate_user (AuthenticateRequest.name request)
                          (AuthenticateRequest.pin_number request);
  if (ok : bool) then
    user_details ← users_getitem (AuthenticateRequest.name request);
    mret (with_name (AuthenticateRequest.name request) user_details)
  else
    raise (HTTPException 401 "Invalid credentials").

Definition bank_transfer (request : BankTransferRequest.t)
  : Handler UserDetailsResponse.t :=
  let sender_name := BankTransferRequest.sender_name request in
  let recipients_name := BankTransferRequest.recipients_name request in
  let amount_to_transfer := BankTransferRequest.amount_to_transfer request in
  ok ← _authenticate_user sender_name (BankTransferRequest.sender_pin request);
  if negb (ok : bool) then
    raise (HTTPException 401 "Invalid sender credentials.")
  else
    sender ← users_get sender_name;
    recipient ← users_get recipients_name;
    match recipient with
    | None =>
        raise (HTTPException 404
                 ("Recipient '" ++ recipients_name ++ "' not found."))
    | Some _ =>
        if String.eqb sender_name recipients_name then
          raise (HTTPException 400
                   "Sender and recipient cannot be the same person.")
        else if (amount_to_transfer <=? 0)%float then
          raise (HTTPException 400 "Transfer amount must be positive.")
        else
          s ← deref sender;
          if (bank_balance s <? amount_to_transfer)%float then
            raise (HTTPException 400 "Insufficient funds for transfer.")
          else
            isub_bank_balance sender amount_to_transfer;;
            iadd_bank_balance recipient amount_to_transfer;;
            r ← deref recipient;
            mret (with_name recipients_name r)
    end.

(** ** The spec's error taxonomy

    Every error the handlers raise on purpose is an [HTTPException]; the
    spec names them by status code and, for status 400, by cause. *)
Inductive ErrorKind :=
| NotFound
| InvalidAmount
| Unauthorized
| InvalidOperation
| InsufficientFunds.

Definition error_kind (e : Exception) : option ErrorKind :=
  match e with
  | HTTPException 404 _ => Some NotFound
  | HTTPException 401 _ => Some Unauthorized
  | HTTPException 400 d =>
      if String.eqb d "Deposit amount must be positive." then Some InvalidAmount
      else if String.eqb d "Transfer amount must be positive." then Some InvalidAmount
      else if String.eqb d "Sender and recipient cannot be the same person."
      then Some InvalidOperation
      else if String.eqb d "Insufficient funds for transfer."
      then Some InsufficientFunds
      else None
  | _ => None
  end.

(** The outcome of a handler run: the result and the store left behind. *)
Definition fails_with {A} (k : ErrorKind)
    (out : (Exception + A) * gmap string Account) : Prop :=
  ∃ e, out.1 = inl e ∧ error_kind e = Some k.

Definition succeeds {A} (out : (Exception + A) * gmap string Account) : Prop :=
  ∃ a, out.1 = inr a.

(** ** Sequences of requests *)

Inductive Request :=
| ListUsers
| Deposit (request : DepositRequest.t)
| Authenticate (request : AuthenticateRequest.t)
| BankTransfer (request : BankTransferRequest.t).

(** What a handler returns: the whole dictionary for [get_users], an account
    record for the others. *)
Inductive Response :=
| AllUsers (m : gmap string Account)
| UserDetails (d : UserDetailsResponse.t).

(** The handler the router calls for a request. *)
Definition handle (rq : Request) : Handler Response :=
  match rq with
  | ListUsers => m ← get_users; mret (AllUsers m)
  | Deposit r => d ← deposit r; mret (UserDetails d)
  | Authenticate r => d ← authenticate r; mret (UserDetails d)
  | BankTransfer r => d ← bank_transfer r; mret (UserDetails d)
  end.

(** The store after serving one request, whatever its outcome. *)
Definition serve (rq : Request) (σ : gmap string Account) : gmap string Account :=
  (handle rq σ).2.

Definition serve_all (rqs : list Request) (σ : gmap string Account)
  : gmap string Account :=
  foldl (λ σ rq, serve rq σ) σ rqs.

(** The amount a request carries, if any. *)
Definition amount_of (rq : Request) : option float :=
  match rq with
  | Deposit r => Some (DepositRequest.amount_to_deposit r)
  | BankTransfer r => Some (BankTransferRequest.amount_to_transfer r)
  | _ => None
  end.

(** The store a request leaves behind is the old one, or the old one with
    the balance of one account (deposit) or of two accounts under different
    names (transfer) replaced. *)
Inductive store_step (rq : Request) (σ : gmap string Account)
  : (Exception + Response) * gmap string Account → Prop :=
| step_error e :
    is_Some (error_kind e) →
    store_step rq σ (inl e, σ)
| step_read v :
    amount_of rq = None →
    store_step rq σ (inr v, σ)
| step_deposit r a v :
    rq = Deposit r →
    σ !! DepositRequest.name r = Some a →
    (DepositRequest.amount_to_deposit r <=? 0)%float = false →
    store_step rq σ
      (inr v,
       <[DepositRequest.name r :=
           set_bank_balance
             (bank_balance a + DepositRequest.amount_to_deposit r)%float a]> σ)
| step_transfer r s c v :
    rq = BankTransfer r →
    σ !! BankTransferRequest.sender_name r = Some s →
    σ !! BankTransferRequest.recipients_name r = Some c →
    BankTransferRequest.sender_name r ≠ BankTransferRequest.recipients_name r →
    (BankTransferRequest.amount_to_transfer r <=? 0)%float = false →
    (bank_balance s <? BankTransferRequest.amount_to_transfer r)%float = false →
    store_step rq σ
      (inr v,
       <[BankTransferRequest.recipients_name r :=
           set_bank_balance
             (bank_balance c + BankTransferRequest.amount_to_transfer r)%float c]>
       (<[BankTransferRequest.sender_name r :=
            set_bank_balance
              (bank_balance s - BankTransferRequest.amount_to_transfer r)%float s]>
        σ)).

(** A transfer request from "Ali" to "Sara", for the examples. *)
Definition ali_to_sara (pin_ : Z) (x : float) : BankTransferRequest.t :=
  {| BankTransferRequest.sender_name := "Ali";
     BankTransferRequest.sender_pin := pin_;
     BankTransferRequest.recipients_name := "Sara";
     BankTransferRequest.amount_to_transfer := x |}.

(** ** Predicates the properties are stated with *)

(** Non-negative and not NaN, on the specification side of binary64: what
    the comparison [0 <= x] computes. *)
Definition SFnonneg (x : spec_float) : bool :=
  match x with
  | S754_zero _ => true
  | S754_infinity s => negb s
  | S754_nan => false
  | S754_finite s _ _ => negb s
  end.

(** Not below zero: zero, positive, or NaN; what [x < 0] refutes. *)
Definition SFnotneg (x : spec_float) : bool :=
  match x with
  | S754_infinity s => negb s
  | S754_finite s _ _ => negb s
  | _ => true
  end.

(** Every balance in the store satisfies [balance >= 0]. *)
Definition nonneg_balances (σ : gmap string Account) : Prop :=
  ∀ n a, σ !! n = Some a → (0 <=? bank_balance a)%float = true.

(** No balance in the store satisfies [balance < 0]. *)
Definition no_negative_balance (σ : gmap string Account) : Prop :=
  ∀ n a, σ !! n = Some a → (bank_balance a <? 0)%float = false.

(** The request carries no amount, or a finite one (neither NaN nor an
    infinity). *)
Definition finite_amount (rq : Request) : Prop :=
  match amount_of rq with
  | Some x => is_finite x = true
  | None => True
  end.

(** The request can write to the store: it is a deposit or a transfer. *)
Definition is_mutating (rq : Request) : bool :=
  match rq with
  | Deposit _ | BankTransfer _ => true
  | ListUsers | Authenticate _ => false
  end.

(** The account under [n] exists and its balance is NaN. *)
Definition nan_balance_at (n : string) (σ : gmap string Account) : Prop :=
  ∃ a, σ !! n = Some a ∧ is_nan (bank_balance a) = true.

(** The stored account a returned record describes. *)
Definition account_of (d : UserDetailsResponse.t) : Account :=
  {| pin := UserDetailsResponse.pin d;
     bank_balance := UserDetailsResponse.bank_balance d |}.

(** Unfolds the handler combinators down to functions of the store. *)
Ltac unfold_handler :=
  unfold mbind, mret, handler_bind, handler_ret, bind, ret, raise,
    users_get, deref, users_getitem, iadd_bank_balance, isub_bank_balance.

(** ** Binary64 facts used by the handlers' guards *)

Lemma SFcompare_antisym x y :
  SFcompare y x = option_map CompOpp (SFcompare x y).
Proof.
  destruct x as [sx|sx| |sx mx ex], y as [sy|sy| |sy my ey]; simpl;
    try reflexivity;
    try (destruct sx; reflexivity); try (destruct sy; reflexivity);
    try (destruct sx, sy; reflexivity).
  destruct sx, sy; try reflexivity;
    rewrite (Z.compare_antisym ex ey); destruct (ex ?= ey); simpl;
    try reflexivity; rewrite (Pos.compare_cont_antisym mx my Eq); simpl;
    rewrite ?CompOpp_involutive; reflexivity.
Qed.

Lemma leb_ltb_false (a b : float) :
  (a <=? b)%float = true → (b <? a)%float = false.
Proof.
  rewrite FloatAxioms.leb_spec, FloatAxioms.ltb_spec. unfold SFleb, SFltb.
  rewrite (SFcompare_antisym (Prim2SF a) (Prim2SF b)).
  destruct (SFcompare (Prim2SF a) (Prim2SF b)) as [[]|]; simpl; congruence.
Qed.

Lemma ltb_leb_false (a b : float) :
  (a <? b)%float = true → (b <=? a)%float = false.
Proof.
  rewrite FloatAxioms.leb_spec, FloatAxioms.ltb_spec. unfold SFleb, SFltb.
  rewrite (SFcompare_antisym (Prim2SF a) (Prim2SF b)).
  destruct (SFcompare (Prim2SF a) (Prim2SF b)) as [[]|]; simpl; congruence.
Qed.

Lemma SFleb_zero x : SFleb (S754_zero false) x = SFnonneg x.
Proof. destruct x as [s|s| |s m e]; try reflexivity; destruct s; reflexivity. Qed.

Lemma iter_pos_inv {A} (P : A → Prop) (f : A → A) :
  (∀ x, P x → P (f x)) → ∀ n x, P x → P (SpecFloat.iter_pos f n x).
Proof.
  intros Hf. induction n as [n IH|n IH|]; intros x Hx; simpl; auto.
Qed.

Lemma shr_1_nonneg mrs : 0 ≤ shr_m mrs → 0 ≤ shr_m (shr_1 mrs).
Proof.
  destruct mrs as [m r s]. simpl.
  destruct m as [|[p|p|]|[p|p|]]; simpl; lia.
Qed.

Lemma shr_nonneg mrs e n : 0 ≤ shr_m mrs → 0 ≤ shr_m (shr mrs e n).1.
Proof.
  intros H. destruct n as [|p|p]; simpl; try assumption.
  apply (iter_pos_inv (λ x, 0 ≤ shr_m x)); [apply shr_1_nonneg|assumption].
Qed.

Lemma shr_fexp_nonneg m e l :
  0 ≤ m → 0 ≤ shr_m (shr_fexp prec emax m e l).1.
Proof.
  intros H. unfold shr_fexp. apply shr_nonneg.
  destruct l as [|[]]; simpl; assumption.
Qed.

Lemma round_nearest_even_nonneg m l : 0 ≤ m → 0 ≤ round_nearest_even m l.
Proof.
  intros H. destruct l as [|[]]; simpl; try lia.
  destruct (Z.even m); lia.
Qed.

Lemma binary_round_aux_nonneg m e l :
  0 ≤ m → SFnonneg (binary_round_aux prec emax false m e l) = true.
Proof.
  intros H. unfold binary_round_aux.
  pose proof (shr_fexp_nonneg m e l H) as H1.
  destruct (shr_fexp prec emax m e l) as [mrs' e'].
  set (m' := round_nearest_even _ _).
  assert (0 ≤ m') as H2 by (apply round_nearest_even_nonneg, H1).
  pose proof (shr_fexp_nonneg m' e' loc_Exact H2) as H3.
  destruct (shr_fexp prec emax m' e' loc_Exact) as [mrs'' e''].
  simpl in H3. destruct (shr_m mrs'') as [|p|p]; [reflexivity| |lia].
  destruct (e'' <=? _); reflexivity.
Qed.

Lemma binary_normalize_nonneg m e :
  0 ≤ m → SFnonneg (binary_normalize prec emax m e false) = true.
Proof.
  intros H. destruct m as [|p|p]; [reflexivity| |lia].
  simpl. unfold binary_round.
  destruct (shl_align _ _ _) as [mz ez].
  apply binary_round_aux_nonneg. lia.
Qed.

(** A non-negative balance plus a positive finite amount. *)
Lemma SFadd_nonneg x my ey :
  SFnonneg x = true →
  SFnonneg (SFadd prec emax x (S754_finite false my ey)) = true.
Proof.
  destruct x as [s|s| |s m e]; simpl; try done.
  intros Hs. apply binary_normalize_nonneg.
  destruct s; [discriminate|]. simpl. lia.
Qed.

Lemma digits2_pos_bounds m :
  2 ^ (Z.pos (digits2_pos m) - 1) ≤ Z.pos m < 2 ^ Z.pos (digits2_pos m).
Proof.
  induction m as [m IH|m IH|]; simpl digits2_pos.
  - rewrite Pos2Z.inj_succ, Z.pow_succ_r by lia.
    replace (Z.succ (Z.pos (digits2_pos m)) - 1)
      with (Z.succ (Z.pos (digits2_pos m) - 1)) by lia.
    rewrite Z.pow_succ_r by lia. lia.
  - rewrite Pos2Z.inj_succ, Z.pow_succ_r by lia.
    replace (Z.succ (Z.pos (digits2_pos m)) - 1)
      with (Z.succ (Z.pos (digits2_pos m) - 1)) by lia.
    rewrite Z.pow_succ_r by lia. lia.
  - simpl. lia.
Qed.

Lemma iter_xO_pow m d : Z.pos (Pos.iter xO m d) = Z.pos m * 2 ^ Z.pos d.
Proof.
  induction d as [|d IH] using Pos.peano_ind.
  - simpl. lia.
  - rewrite Pos.iter_succ, Pos2Z.inj_succ, Z.pow_succ_r by lia.
    rewrite Pos2Z.inj_xO, IH. lia.
Qed.

(** A valid mantissa has at most 53 bits, and exactly 53 above the lowest
    exponent. *)
Lemma bounded_digits m e :
  bounded prec emax m e = true →
  emin ≤ e ∧ Z.pos (digits2_pos m) ≤ 53 ∧ (emin < e → Z.pos (digits2_pos m) = 53).
Proof.
  unfold bounded, canonical_mantissa, fexp, SpecFloat.emin, prec, emax.
  intros H. apply andb_prop in H as [H _]. apply Z.eqb_eq in H. lia.
Qed.

(** A non-negative balance minus a positive finite amount that does not
    exceed it. *)
Lemma SFsub_nonneg x my ey :
  valid_binary x = true →
  bounded prec emax my ey = true →
  SFnonneg x = true →
  SFltb x (S754_finite false my ey) = false →
  SFnonneg (SFsub prec emax x (S754_finite false my ey)) = true.
Proof.
  destruct x as [s|s| |s mx ex]; simpl; try done.
  intros Hx Hy Hs Hlt. destruct s; [discriminate|].
  apply binary_normalize_nonneg. simpl cond_Zopp.
  apply bounded_digits in Hx as (Hx1 & Hx2 & Hx3).
  apply bounded_digits in Hy as (Hy1 & Hy2 & Hy3).
  pose proof (digits2_pos_bounds mx) as [Bx1 Bx2].
  pose proof (digits2_pos_bounds my) as [By1 By2].
  unfold SFltb in Hlt. simpl in Hlt.
  destruct (ex ?= ey) eqn:Hc; [| discriminate |].
  - apply Z.compare_eq in Hc. subst ey.
    rewrite Z.min_id. unfold shl_align. rewrite Z.sub_diag. simpl fst.
    destruct (Pos.compare_cont Eq mx my) eqn:Hm; try discriminate.
    + apply Pos.compare_eq in Hm. subst. lia.
    + change (Pos.compare mx my = Gt) in Hm.
      apply Pos.compare_gt_iff in Hm. lia.
  - apply Z.compare_gt_iff in Hc.
    rewrite Z.min_r by lia. unfold shl_align. rewrite Z.sub_diag. simpl fst.
    destruct (ey - ex) as [|d|d] eqn:Hd; try lia. simpl fst.
    rewrite iter_xO_pow.
    assert (Z.pos (digits2_pos mx) = 53) as Ex by (apply Hx3; lia).
    rewrite Ex in Bx1.
    assert (2 ^ Z.pos (digits2_pos my) ≤ 2 ^ 53)
      by (apply Z.pow_le_mono_r; lia).
    assert (2 ^ 1 ≤ 2 ^ Z.pos d) by (apply Z.pow_le_mono_r; lia).
    change (53 - 1) with 52 in Bx1.
    change (2 ^ 53) with (2 ^ 52 * 2) in *. change (2 ^ 1) with 2 in *.
    nia.
Qed.

(** What the guards say about a primitive float. *)
Lemma leb_zero (b : float) : (0 <=? b)%float = SFnonneg (Prim2SF b).
Proof. rewrite FloatAxioms.leb_spec. apply SFleb_zero. Qed.

Lemma positive_finite (a : float) :
  (a <=? 0)%float = false → is_finite a = true →
  ∃ m e, Prim2SF a = S754_finite false m e.
Proof.
  unfold is_finite, is_nan, is_infinity.
  rewrite FloatAxioms.leb_spec, !FloatAxioms.eqb_spec, FloatAxioms.abs_spec.
  change (Prim2SF 0) with (S754_zero false).
  change (Prim2SF infinity) with (S754_infinity false).
  destruct (Prim2SF a) as [s|s| |s m e]; try done.
  all: destruct s; try done. eauto.
Qed.

Lemma add_nonneg (b a : float) :
  (0 <=? b)%float = true → (a <=? 0)%float = false → is_finite a = true →
  (0 <=? b + a)%float = true.
Proof.
  intros Hb Ha Hf. destruct (positive_finite a Ha Hf) as (m & e & Ea).
  rewrite leb_zero in *. rewrite FloatAxioms.add_spec, Ea.
  apply SFadd_nonneg, Hb.
Qed.

Lemma sub_nonneg (b a : float) :
  (0 <=? b)%float = true → (a <=? 0)%float = false → is_finite a = true →
  (b <? a)%float = false →
  (0 <=? b - a)%float = true.
Proof.
  intros Hb Ha Hf Hlt. destruct (positive_finite a Ha Hf) as (m & e & Ea).
  rewrite leb_zero in *. rewrite FloatAxioms.sub_spec. rewrite FloatAxioms.ltb_spec in Hlt.
  pose proof (Prim2SF_valid a) as Hv. rewrite Ea in *.
  apply SFsub_nonneg; auto using Prim2SF_valid.
Qed.

Lemma ltb_zero (b : float) : (b <? 0)%float = negb (SFnotneg (Prim2SF b)).
Proof.
  rewrite FloatAxioms.ltb_spec. change (Prim2SF 0) with (S754_zero false).
  destruct (Prim2SF b) as [s|s| |s m e]; try reflexivity; destruct s; reflexivity.
Qed.

Lemma SFnonneg_notneg x : SFnonneg x = true → SFnotneg x = true.
Proof. destruct x; simpl; auto. Qed.

(** Whatever passes the guard [amount <= 0], NaN and infinity included, the
    sum is not below zero when the balance is not. *)
Lemma add_not_negative (b a : float) :
  (b <? 0)%float = false → (a <=? 0)%float = false →
  (b + a <? 0)%float = false.
Proof.
  rewrite !ltb_zero, FloatAxioms.leb_spec, FloatAxioms.add_spec.
  change (Prim2SF 0) with (S754_zero false).
  intros Hb Ha. apply negb_false_iff in Hb. apply negb_false_iff.
  destruct (Prim2SF a) as [sa|sa| |sa ma ea]; try destruct sa; try done.
  - destruct (Prim2SF b) as [sb|sb| |sb mb eb]; try destruct sb; done.
  - destruct (Prim2SF b) as [sb|sb| |sb mb eb]; try destruct sb; done.
  - destruct (Prim2SF b) as [sb|sb| |sb mb eb] eqn:Eb; try done.
    all: apply SFnonneg_notneg, SFadd_nonneg; exact Hb.
Qed.

Lemma sub_not_negative (b a : float) :
  (b <? 0)%float = false → (a <=? 0)%float = false → (b <? a)%float = false →
  (b - a <? 0)%float = false.
Proof.
  rewrite !ltb_zero, FloatAxioms.leb_spec, FloatAxioms.sub_spec,
    FloatAxioms.ltb_spec.
  change (Prim2SF 0) with (S754_zero false).
  pose proof (Prim2SF_valid a) as Va. pose proof (Prim2SF_valid b) as Vb.
  intros Hb Ha Hlt. apply negb_false_iff in Hb. apply negb_false_iff.
  destruct (Prim2SF a) as [sa|sa| |sa ma ea]; try destruct sa; try done.
  - destruct (Prim2SF b) as [sb|sb| |sb mb eb]; try destruct sb; done.
  - destruct (Prim2SF b) as [sb|sb| |sb mb eb]; try destruct sb; done.
  - destruct (Prim2SF b) as [sb|sb| |sb mb eb] eqn:Eb; try done.
    all: apply SFnonneg_notneg, SFsub_nonneg; auto.
Qed.

(** ** Run equations: each handler as a function of the store *)

Lemma _authenticate_user_run name p σ :
  _authenticate_user name p σ =
  (inr (match σ !! name with Some a => (pin a =? p)%Z | None => false end), σ).
Proof.
  unfold _authenticate_user. unfold_handler.
  destruct (σ !! name) as [a|] eqn:E; [|reflexivity].
  rewrite E. destruct (pin a =? p)%Z; reflexivity.
Qed.

Lemma deposit_run request σ :
  deposit request σ =
  match σ !! DepositRequest.name request with
  | None =>
      (inl (HTTPException 404
              ("User '" ++ DepositRequest.name request ++ "' not found.")), σ)
  | Some a =>
      if (DepositRequest.amount_to_deposit request <=? 0)%float then
        (inl (HTTPException 400 "Deposit amount must be positive."), σ)
      else
        let a' :=
          set_bank_balance
            (bank_balance a + DepositRequest.amount_to_deposit request)%float a in
        (inr (with_name (DepositRequest.name request) a'),
         <[DepositRequest.name request := a']> σ)
  end.
Proof.
  unfold deposit. unfold_handler.
  destruct (σ !! DepositRequest.name request) as [a|] eqn:E; [|reflexivity].
  destruct (_ <=? _)%float; [reflexivity|].
  rewrite lookup_alter_eq, E. simpl.
  f_equal. apply map_eq. intros k.
  destruct (decide (DepositRequest.name request = k)) as [<-|Hne].
  - rewrite lookup_alter_eq, lookup_insert_eq, E. reflexivity.
  - rewrite lookup_alter_ne, lookup_insert_ne by done. reflexivity.
Qed.

Lemma authenticate_run request σ :
  authenticate request σ =
  match σ !! AuthenticateRequest.name request with
  | Some a =>
      if (pin a =? AuthenticateRequest.pin_number request)%Z then
        (inr (with_name (AuthenticateRequest.name request) a), σ)
      else (inl (HTTPException 401 "Invalid credentials"), σ)
  | None => (inl (HTTPException 401 "Invalid credentials"), σ)
  end.
Proof.
  unfold authenticate. unfold mbind at 1. unfold handler_bind, bind.
  rewrite _authenticate_user_run.
  destruct (σ !! AuthenticateRequest.name request) as [a|] eqn:E; [|reflexivity].
  destruct (pin a =? _)%Z; [|reflexivity].
  unfold_handler. rewrite E. reflexivity.
Qed.

Lemma bank_transfer_run request σ :
  let sender_name := BankTransferRequest.sender_name request in
  let recipients_name := BankTransferRequest.recipients_name request in
  let amount := BankTransferRequest.amount_to_transfer request in
  bank_transfer request σ =
  match σ !! sender_name with
  | None => (inl (HTTPException 401 "Invalid sender credentials."), σ)
  | Some s =>
      if negb (pin s =? BankTransferRequest.sender_pin request)%Z then
        (inl (HTTPException 401 "Invalid sender credentials."), σ)
      else
        match σ !! recipients_name with
        | None =>
            (inl (HTTPException 404
                    ("Recipient '" ++ recipients_name ++ "' not found.")), σ)
        | Some r =>
            if String.eqb sender_name recipients_name then
              (inl (HTTPException 400
                      "Sender and recipient cannot be the same person."), σ)
            else if (amount <=? 0)%float then
              (inl (HTTPException 400 "Transfer amount must be positive."), σ)
            else if (bank_balance s <? amount)%float then
              (inl (HTTPException 400 "Insufficient funds for transfer."), σ)
            else
              let s' := set_bank_balance (bank_balance s - amount)%float s in
              let r' := set_bank_balance (bank_balance r + amount)%float r in
              (inr (with_name recipients_name r'),
               <[recipients_name := r']> (<[sender_name := s']> σ))
        end
  end.
Proof.
  intros sn rn amt. unfold bank_transfer. fold sn rn amt.
  unfold mbind at 1. unfold handler_bind, bind.
  rewrite _authenticate_user_run.
  destruct (σ !! sn) as [s|] eqn:Es; [|reflexivity].
  destruct (pin s =? _)%Z; [|reflexivity]. simpl.
  unfold_handler. rewrite Es.
  destruct (σ !! rn) as [r|] eqn:Er; [|reflexivity].
  destruct (String.eqb sn rn) eqn:Hsr; [reflexivity|].
  apply String.eqb_neq in Hsr.
  destruct (amt <=? 0)%float; [reflexivity|].
  rewrite Es.
  destruct (bank_balance s <? amt)%float; [reflexivity|].
  rewrite lookup_alter_eq, lookup_alter_ne, Er by done. simpl.
  f_equal. apply map_eq. intros k.
  destruct (decide (rn = k)) as [<-|Hr].
  - rewrite lookup_alter_eq, lookup_alter_ne, lookup_insert_eq, Er by done.
    reflexivity.
  - rewrite lookup_alter_ne, lookup_insert_ne by done.
    destruct (decide (sn = k)) as [<-|Hs].
    + rewrite lookup_alter_eq, lookup_insert_eq, Es. reflexivity.
    + rewrite lookup_alter_ne, lookup_insert_ne by done. reflexivity.
Qed.

(** ** The seed store *)

Lemma users_Ali : users !! "Ali" = Some {| pin := 1234; bank_balance := 10000 |}.
Proof. reflexivity. Qed.

Lemma users_Sara : users !! "Sara" = Some {| pin := 4321; bank_balance := 15000 |}.
Proof. reflexivity. Qed.

Lemma users_Nobody : users !! "Nobody" = None.
Proof. reflexivity. Qed.

(** ** Authentication *)

(** C4: [authenticate] succeeds exactly when the name is in the store and
    its pin equals the candidate pin; it then returns the account record:
    the requested name with the pin and the balance stored under it.  An
    unknown name and a wrong pin raise one and the same
    exception, status 401 with detail "Invalid credentials", the spec's
    [Unauthorized]; the store is left as it was in every case. *)
Theorem authenticate_iff (request : AuthenticateRequest.t) (σ : gmap string Account) :
  let name := AuthenticateRequest.name request in
  let p := AuthenticateRequest.pin_number request in
  (succeeds (authenticate request σ) ↔ ∃ a, σ !! name = Some a ∧ pin a = p)
  ∧ (∀ a, σ !! name = Some a → pin a = p →
       authenticate request σ =
       (inr {| UserDetailsResponse.name := name;
               UserDetailsResponse.pin := pin a;
               UserDetailsResponse.bank_balance := bank_balance a |}, σ))
  ∧ (σ !! name = None →
       authenticate request σ = (inl (HTTPException 401 "Invalid credentials"), σ))
  ∧ (∀ a, σ !! name = Some a → pin a ≠ p →
       authenticate request σ = (inl (HTTPException 401 "Invalid credentials"), σ))
  ∧ error_kind (HTTPException 401 "Invalid credentials") = Some Unauthorized.
Proof.
  intros name p. rewrite authenticate_run. fold name p.
  unfold succeeds.
  destruct (σ !! name) as [a|] eqn:E.
  - destruct (Z.eqb_spec (pin a) p) as [Hp|Hp]; simpl; split_and!;
      try (intros a' [= <-] ?); try done.
    + split; eauto.
    + split; [intros [? [=]] | intros (a' & [= <-] & ?); done].
  - simpl; split_and!; try done.
    split; [intros [? [=]] | intros (a' & [=] & ?)].
Qed.

Lemma authenticate_iff_witness :
  authenticate {| AuthenticateRequest.name := "Ali";
                  AuthenticateRequest.pin_number := 1234 |} users
  = (inr {| UserDetailsResponse.name := "Ali";
            UserDetailsResponse.pin := 1234;
            UserDetailsResponse.bank_balance := 10000 |}, users)
  ∧ authenticate {| AuthenticateRequest.name := "Sara";
                    AuthenticateRequest.pin_number := 4321 |} users
    = (inr {| UserDetailsResponse.name := "Sara";
              UserDetailsResponse.pin := 4321;
              UserDetailsResponse.bank_balance := 15000 |}, users)
  ∧ authenticate {| AuthenticateRequest.name := "Ali";
                    AuthenticateRequest.pin_number := 9999 |} users
    = authenticate {| AuthenticateRequest.name := "Nobody";
                      AuthenticateRequest.pin_number := 1234 |} users.
Proof.
  split_and!.
  - destruct (authenticate_iff
                {| AuthenticateRequest.name := "Ali";
                   AuthenticateRequest.pin_number := 1234 |} users)
      as (_ & H & _).
    apply (H {| pin := 1234; bank_balance := 10000 |}); reflexivity.
  - destruct (authenticate_iff
                {| AuthenticateRequest.name := "Sara";
                   AuthenticateRequest.pin_number := 4321 |} users)
      as (_ & H & _).
    apply (H {| pin := 4321; bank_balance := 15000 |}); reflexivity.
  - destruct (authenticate_iff
                {| AuthenticateRequest.name := "Ali";
                   AuthenticateRequest.pin_number := 9999 |} users)
      as (_ & _ & _ & H1 & _).
    destruct (authenticate_iff
                {| AuthenticateRequest.name := "Nobody";
                   AuthenticateRequest.pin_number := 1234 |} users)
      as (_ & _ & H2 & _).
    rewrite (H1 {| pin := 1234; bank_balance := 10000 |});
      [|reflexivity|simpl; lia].
    rewrite H2; reflexivity.
Defined.

(** ** Deposit *)

(** C3: a deposit of a positive amount into an existing account sets that
    account's balance to the old balance plus the amount (the binary64 sum,
    as the source computes it) and returns the updated record. *)
Theorem deposit_success (request : DepositRequest.t) (σ : gmap string Account)
    (a : Account) :
  let name := DepositRequest.name request in
  let amount := DepositRequest.amount_to_deposit request in
  σ !! name = Some a →
  (0 <? amount)%float = true →
  deposit request σ =
  (inr {| UserDetailsResponse.name := name;
          UserDetailsResponse.pin := pin a;
          UserDetailsResponse.bank_balance := (bank_balance a + amount)%float |},
   <[name := {| pin := pin a;
                bank_balance := (bank_balance a + amount)%float |}]> σ).
Proof.
  intros name amount Ha Hpos. rewrite deposit_run. fold name amount.
  rewrite Ha, (ltb_leb_false _ _ Hpos). reflexivity.
Qed.

Lemma deposit_success_witness :
  deposit {| DepositRequest.name := "Ali";
             DepositRequest.amount_to_deposit := 250.5 |} users =
  (inr {| UserDetailsResponse.name := "Ali";
          UserDetailsResponse.pin := 1234;
          UserDetailsResponse.bank_balance := 10250.5 |},
   <["Ali" := {| pin := 1234; bank_balance := 10250.5 |}]> users).
Proof.
  apply (deposit_success
           {| DepositRequest.name := "Ali";
              DepositRequest.amount_to_deposit := 250.5 |} users
           {| pin := 1234; bank_balance := 10000 |}).
  - reflexivity.
  - reflexivity.
Defined.

(** C7: [deposit] fails with [NotFound] exactly when the name is not in the
    store, and with [InvalidAmount] exactly when the name is in the store
    and [amount <= 0]; the name is checked first, so an unknown name gives
    [NotFound] whatever the amount. *)
Theorem deposit_errors (request : DepositRequest.t) (σ : gmap string Account) :
  let name := DepositRequest.name request in
  let amount := DepositRequest.amount_to_deposit request in
  (fails_with NotFound (deposit request σ) ↔ σ !! name = None)
  ∧ (fails_with InvalidAmount (deposit request σ) ↔
       is_Some (σ !! name) ∧ (amount <=? 0)%float = true)
  ∧ (σ !! name = None →
       deposit request σ =
       (inl (HTTPException 404 ("User '" ++ name ++ "' not found.")), σ)).
Proof.
  intros name amount. rewrite deposit_run. fold name amount.
  unfold fails_with.
  destruct (σ !! name) as [a|] eqn:E.
  - destruct (amount <=? 0)%float eqn:Hle; simpl; split_and!; try done.
    + split; [intros (e & [= <-] & [=]) | done].
    + split; [eauto | intros _; eexists; split; reflexivity].
    + split; [intros (e & [=] & _) | done].
    + split; [intros (e & [=] & _) | intros [_ [=]]].
  - simpl; split_and!; try done.
    + split; [done | intros _; eexists; split; reflexivity].
    + split; [intros (e & [= <-] & [=]) | intros [[? [=]] _]].
Qed.

Lemma deposit_errors_witness :
  deposit {| DepositRequest.name := "Nobody";
             DepositRequest.amount_to_deposit := (-5)%float |} users =
  (inl (HTTPException 404 "User 'Nobody' not found."), users).
Proof.
  destruct (deposit_errors
              {| DepositRequest.name := "Nobody";
                 DepositRequest.amount_to_deposit := (-5)%float |} users)
    as (_ & _ & H).
  apply H. reflexivity.
Defined.

(** ** Transfer *)

(** C1: when the sender exists with a matching pin, the recipient exists
    under another name, the amount is positive and the sender's balance is
    at least the amount, [bank_transfer] lowers the sender's balance by the
    amount, raises the recipient's by the amount (binary64 difference and
    sum) and returns the updated recipient record: name, pin and new
    balance of the recipient, nothing of the sender. *)
Theorem transfer_success (request : BankTransferRequest.t)
    (σ : gmap string Account) (s r : Account) :
  let sender_name := BankTransferRequest.sender_name request in
  let recipients_name := BankTransferRequest.recipients_name request in
  let amount := BankTransferRequest.amount_to_transfer request in
  σ !! sender_name = Some s →
  pin s = BankTransferRequest.sender_pin request →
  σ !! recipients_name = Some r →
  sender_name ≠ recipients_name →
  (0 <? amount)%float = true →
  (amount <=? bank_balance s)%float = true →
  ∃ σ',
    bank_transfer request σ =
    (inr {| UserDetailsResponse.name := recipients_name;
            UserDetailsResponse.pin := pin r;
            UserDetailsResponse.bank_balance := (bank_balance r + amount)%float |},
     σ')
    ∧ σ' !! sender_name =
      Some {| pin := pin s; bank_balance := (bank_balance s - amount)%float |}
    ∧ σ' !! recipients_name =
      Some {| pin := pin r; bank_balance := (bank_balance r + amount)%float |}
    ∧ ∀ n, n ≠ sender_name → n ≠ recipients_name → σ' !! n = σ !! n.
Proof.
  intros sn rn amt Hs Hpin Hr Hne Hpos Hle.
  pose proof (bank_transfer_run request σ) as Hrun. simpl in Hrun.
  fold sn rn amt in Hrun. rewrite Hs, Hr in Hrun.
  apply Z.eqb_eq in Hpin. rewrite Hpin in Hrun. simpl in Hrun.
  apply String.eqb_neq in Hne. rewrite Hne in Hrun.
  apply String.eqb_neq in Hne.
  rewrite (ltb_leb_false _ _ Hpos), (leb_ltb_false _ _ Hle) in Hrun.
  eexists. split; [exact Hrun|]. split_and!.
  - rewrite lookup_insert_ne, lookup_insert_eq by (intros E; apply Hne; auto).
    reflexivity.
  - rewrite lookup_insert_eq. reflexivity.
  - intros n Hn1 Hn2. rewrite !lookup_insert_ne by auto. reflexivity.
Qed.

Lemma transfer_success_witness :
  ∃ σ',
    bank_transfer (ali_to_sara 1234 500) users =
    (inr {| UserDetailsResponse.name := "Sara";
            UserDetailsResponse.pin := 4321;
            UserDetailsResponse.bank_balance := 15500 |}, σ')
    ∧ σ' !! "Ali" = Some {| pin := 1234; bank_balance := 9500 |}
    ∧ σ' !! "Sara" = Some {| pin := 4321; bank_balance := 15500 |}
    ∧ ∀ n, n ≠ "Ali" → n ≠ "Sara" → σ' !! n = users !! n.
Proof.
  apply (transfer_success (ali_to_sara 1234 500) users
           {| pin := 1234; bank_balance := 10000 |}
           {| pin := 4321; bank_balance := 15000 |}).
  - reflexivity.
  - reflexivity.
  - reflexivity.
  - simpl. discriminate.
  - reflexivity.
  - reflexivity.
Defined.

(** The spec's example: 500 from "Ali" to "Sara" on the seed store. *)
Example transfer_seed :
  bank_transfer {| BankTransferRequest.sender_name := "Ali";
                   BankTransferRequest.sender_pin := 1234;
                   BankTransferRequest.recipients_name := "Sara";
                   BankTransferRequest.amount_to_transfer := 500%float |} users
  = (inr (with_name "Sara" {| pin := 4321; bank_balance := 15500%float |}),
     <["Ali" := {| pin := 1234; bank_balance := 9500%float |}]>
     (<["Sara" := {| pin := 4321; bank_balance := 15500%float |}]> ∅)).
Proof. vm_compute. reflexivity. Qed.

(** The sums and differences are binary64 ones: on a balance of 1e16 a
    deposit of 1 is rounded away. *)
Example deposit_sum_is_rounded :
  (deposit {| DepositRequest.name := "Ali";
              DepositRequest.amount_to_deposit := 1 |}
     (<["Ali" := {| pin := 1234; bank_balance := 10000000000000000 |}]> users)).2
  !! "Ali"
  = Some {| pin := 1234; bank_balance := 10000000000000000 |}.
Proof. vm_compute. reflexivity. Qed.

(** C2: the checks of [bank_transfer] come in the order sender
    authentication, recipient existence, distinct names, positive amount,
    sufficient funds, and the first one that fails decides the error.  So an
    unknown sender or a wrong pin gives the 401 exception ([Unauthorized])
    whatever the other fields are, a missing recipient included. *)
Theorem transfer_validation_order (request : BankTransferRequest.t)
    (σ : gmap string Account) :
  let sender_name := BankTransferRequest.sender_name request in
  let recipients_name := BankTransferRequest.recipients_name request in
  let amount := BankTransferRequest.amount_to_transfer request in
  let authenticated s :=
    σ !! sender_name = Some s ∧ pin s = BankTransferRequest.sender_pin request in
  ((σ !! sender_name = None ∨
    ∃ s, σ !! sender_name = Some s ∧ pin s ≠ BankTransferRequest.sender_pin request) →
   bank_transfer request σ =
   (inl (HTTPException 401 "Invalid sender credentials."), σ))
  ∧ (∀ s, authenticated s → σ !! recipients_name = None →
       bank_transfer request σ =
       (inl (HTTPException 404 ("Recipient '" ++ recipients_name ++ "' not found.")),
        σ))
  ∧ (∀ s, authenticated s → is_Some (σ !! recipients_name) →
       sender_name = recipients_name →
       bank_transfer request σ =
       (inl (HTTPException 400 "Sender and recipient cannot be the same person."),
        σ))
  ∧ (∀ s, authenticated s → is_Some (σ !! recipients_name) →
       sender_name ≠ recipients_name → (amount <=? 0)%float = true →
       bank_transfer request σ =
       (inl (HTTPException 400 "Transfer amount must be positive."), σ))
  ∧ (∀ s, authenticated s → is_Some (σ !! recipients_name) →
       sender_name ≠ recipients_name → (amount <=? 0)%float = false →
       (bank_balance s <? amount)%float = true →
       bank_transfer request σ =
       (inl (HTTPException 400 "Insufficient funds for transfer."), σ))
  ∧ error_kind (HTTPException 401 "Invalid sender credentials.") = Some Unauthorized.
Proof.
  intros sn rn amt authenticated.
  pose proof (bank_transfer_run request σ) as Hrun. simpl in Hrun.
  fold sn rn amt in Hrun. rewrite Hrun. clear Hrun.
  unfold authenticated. split_and!; [| | | | |reflexivity].
  - intros [->|(s & -> & Hp)]; [reflexivity|].
    apply Z.eqb_neq in Hp. rewrite Hp. reflexivity.
  - intros s [-> Hp] ->. apply Z.eqb_eq in Hp. rewrite Hp. reflexivity.
  - intros s [-> Hp] [r ->] He. apply Z.eqb_eq in Hp. rewrite Hp. simpl.
    apply String.eqb_eq in He. rewrite He. reflexivity.
  - intros s [-> Hp] [r ->] Hne ->. apply Z.eqb_eq in Hp. rewrite Hp. simpl.
    apply String.eqb_neq in Hne. rewrite Hne. reflexivity.
  - intros s [-> Hp] [r ->] Hne -> ->. apply Z.eqb_eq in Hp. rewrite Hp. simpl.
    apply String.eqb_neq in Hne. rewrite Hne. reflexivity.
Qed.

Lemma transfer_validation_order_witness :
  bank_transfer
    {| BankTransferRequest.sender_name := "Ali";
       BankTransferRequest.sender_pin := 9999;
       BankTransferRequest.recipients_name := "Nobody";
       BankTransferRequest.amount_to_transfer := 500 |} users
  = (inl (HTTPException 401 "Invalid sender credentials."), users).
Proof.
  destruct (transfer_validation_order
              {| BankTransferRequest.sender_name := "Ali";
                 BankTransferRequest.sender_pin := 9999;
                 BankTransferRequest.recipients_name := "Nobody";
                 BankTransferRequest.amount_to_transfer := 500 |} users)
    as (H & _).
  apply H. right. exists {| pin := 1234; bank_balance := 10000 |}.
  split; [reflexivity | simpl; lia].
Defined.

(** C8: a transfer whose sender authenticates and whose recipient is the
    sender fails with the "same person" exception ([InvalidOperation]),
    whatever the amount and the balance, and leaves the store as it was. *)
Theorem self_transfer_rejected (request : BankTransferRequest.t)
    (σ : gmap string Account) (s : Account) :
  σ !! BankTransferRequest.sender_name request = Some s →
  pin s = BankTransferRequest.sender_pin request →
  BankTransferRequest.sender_name request =
  BankTransferRequest.recipients_name request →
  bank_transfer request σ =
  (inl (HTTPException 400 "Sender and recipient cannot be the same person."), σ)
  ∧ fails_with InvalidOperation (bank_transfer request σ).
Proof.
  intros Hs Hp He.
  assert (bank_transfer request σ =
          (inl (HTTPException 400 "Sender and recipient cannot be the same person."),
           σ)) as Hrun.
  { pose proof (bank_transfer_run request σ) as Hrun. simpl in Hrun.
    rewrite Hrun, <- He, Hs. apply Z.eqb_eq in Hp. rewrite Hp. simpl.
    rewrite String.eqb_refl. reflexivity. }
  split; [exact Hrun|]. rewrite Hrun. eexists. split; reflexivity.
Qed.

Lemma self_transfer_rejected_witness :
  bank_transfer
    {| BankTransferRequest.sender_name := "Ali";
       BankTransferRequest.sender_pin := 1234;
       BankTransferRequest.recipients_name := "Ali";
       BankTransferRequest.amount_to_transfer := 500 |} users
  = (inl (HTTPException 400 "Sender and recipient cannot be the same person."),
     users).
Proof.
  apply (self_transfer_rejected
           {| BankTransferRequest.sender_name := "Ali";
              BankTransferRequest.sender_pin := 1234;
              BankTransferRequest.recipients_name := "Ali";
              BankTransferRequest.amount_to_transfer := 500 |} users
           {| pin := 1234; bank_balance := 10000 |}).
  - reflexivity.
  - reflexivity.
  - reflexivity.
Defined.

(** C10: on one store, a transfer from a name that is not there and a
    transfer from a name that is there with a wrong pin give the identical
    outcome: the same 401 exception with the same detail, and the same
    store. *)
Theorem transfer_auth_indistinguishable (r1 r2 : BankTransferRequest.t)
    (σ : gmap string Account) (s : Account) :
  σ !! BankTransferRequest.sender_name r1 = None →
  σ !! BankTransferRequest.sender_name r2 = Some s →
  pin s ≠ BankTransferRequest.sender_pin r2 →
  bank_transfer r1 σ = bank_transfer r2 σ
  ∧ bank_transfer r1 σ = (inl (HTTPException 401 "Invalid sender credentials."), σ).
Proof.
  intros H1 H2 Hp.
  pose proof (bank_transfer_run r1 σ) as R1.
  pose proof (bank_transfer_run r2 σ) as R2. simpl in R1, R2.
  rewrite H1 in R1. rewrite H2 in R2.
  apply Z.eqb_neq in Hp. rewrite Hp in R2. simpl in R2.
  rewrite R1, R2. split; reflexivity.
Qed.

Lemma transfer_auth_indistinguishable_witness :
  bank_transfer
    {| BankTransferRequest.sender_name := "Nobody";
       BankTransferRequest.sender_pin := 1234;
       BankTransferRequest.recipients_name := "Sara";
       BankTransferRequest.amount_to_transfer := 500 |} users
  = bank_transfer (ali_to_sara 9999 500) users.
Proof.
  apply (transfer_auth_indistinguishable
           {| BankTransferRequest.sender_name := "Nobody";
              BankTransferRequest.sender_pin := 1234;
              BankTransferRequest.recipients_name := "Sara";
              BankTransferRequest.amount_to_transfer := 500 |}
           (ali_to_sara 9999 500) users
           {| pin := 1234; bank_balance := 10000 |}).
  - reflexivity.
  - reflexivity.
  - simpl. lia.
Defined.

(** ** Every request: errors and untouched accounts *)

Lemma handle_run rq σ :
  handle rq σ =
  match rq with
  | ListUsers => (inr (AllUsers σ), σ)
  | Deposit r =>
      match deposit r σ with
      | (inr d, σ') => (inr (UserDetails d), σ')
      | (inl e, σ') => (inl e, σ')
      end
  | Authenticate r =>
      match authenticate r σ with
      | (inr d, σ') => (inr (UserDetails d), σ')
      | (inl e, σ') => (inl e, σ')
      end
  | BankTransfer r =>
      match bank_transfer r σ with
      | (inr d, σ') => (inr (UserDetails d), σ')
      | (inl e, σ') => (inl e, σ')
      end
  end.
Proof. destruct rq; reflexivity. Qed.

Lemma handle_step rq σ : store_step rq σ (handle rq σ).
Proof.
  assert (∀ e, (∃ k, error_kind e = Some k) → store_step rq σ (inl e, σ)) as Herr
    by (intros e [k Hk]; apply step_error; rewrite Hk; eauto).
  rewrite handle_run. destruct rq as [|r|r|r].
  - apply step_read. reflexivity.
  - rewrite deposit_run.
    destruct (σ !! DepositRequest.name r) as [a|] eqn:E;
      [|apply Herr; eexists; reflexivity].
    destruct (_ <=? 0)%float eqn:Hle; [apply Herr; eexists; reflexivity|].
    simpl. eapply step_deposit; eauto.
  - rewrite authenticate_run.
    destruct (σ !! AuthenticateRequest.name r) as [a|];
      [|apply Herr; eexists; reflexivity].
    destruct (pin a =? _); [|apply Herr; eexists; reflexivity].
    apply step_read. reflexivity.
  - pose proof (bank_transfer_run r σ) as Hrun. simpl in Hrun. rewrite Hrun.
    destruct (σ !! BankTransferRequest.sender_name r) as [s|] eqn:Es;
      [|apply Herr; eexists; reflexivity].
    destruct (pin s =? _); [|apply Herr; eexists; reflexivity]. simpl.
    destruct (σ !! BankTransferRequest.recipients_name r) as [c|] eqn:Ec;
      [|apply Herr; eexists; reflexivity].
    destruct (String.eqb _ _) eqn:Hne; [apply Herr; eexists; reflexivity|].
    apply String.eqb_neq in Hne.
    destruct (_ <=? 0)%float eqn:Hle; [apply Herr; eexists; reflexivity|].
    destruct (_ <? _)%float eqn:Hlt; [apply Herr; eexists; reflexivity|].
    simpl. eapply step_transfer; eauto.
Qed.

(** C5: a request that ends in an error leaves the store exactly as it found
    it, and the error is one of the five kinds [NotFound], [InvalidAmount],
    [Unauthorized], [InvalidOperation], [InsufficientFunds].  A transfer of
    more than the sender holds is such a request: it ends in the
    "Insufficient funds" exception, and no balance changes. *)
Theorem error_leaves_store (rq : Request) (σ σ' : gmap string Account)
    (e : Exception) :
  (handle rq σ = (inl e, σ') → σ' = σ ∧ is_Some (error_kind e))
  ∧ (∀ r s,
       rq = BankTransfer r →
       σ !! BankTransferRequest.sender_name r = Some s →
       pin s = BankTransferRequest.sender_pin r →
       is_Some (σ !! BankTransferRequest.recipients_name r) →
       BankTransferRequest.sender_name r ≠ BankTransferRequest.recipients_name r →
       (0 <? BankTransferRequest.amount_to_transfer r)%float = true →
       (bank_balance s <? BankTransferRequest.amount_to_transfer r)%float = true →
       handle rq σ =
       (inl (HTTPException 400 "Insufficient funds for transfer."), σ)
       ∧ error_kind (HTTPException 400 "Insufficient funds for transfer.")
         = Some InsufficientFunds).
Proof.
  split.
  - intros H. pose proof (handle_step rq σ) as Hs. rewrite H in Hs.
    inversion Hs. split; [reflexivity | assumption].
  - intros r s -> Hs Hp [c Hc] Hne Hpos Hlt. split; [|reflexivity].
    rewrite handle_run.
    pose proof (bank_transfer_run r σ) as Hrun. simpl in Hrun.
    rewrite Hrun, Hs, Hc. apply Z.eqb_eq in Hp. rewrite Hp. simpl.
    apply String.eqb_neq in Hne. rewrite Hne.
    rewrite (ltb_leb_false _ _ Hpos), Hlt. reflexivity.
Qed.

Lemma error_leaves_store_witness :
  handle (BankTransfer (ali_to_sara 1234 20000)) users =
  (inl (HTTPException 400 "Insufficient funds for transfer."), users)
  ∧ users = users
  ∧ is_Some (error_kind (HTTPException 400 "Insufficient funds for transfer.")).
Proof.
  destruct (error_leaves_store (BankTransfer (ali_to_sara 1234 20000))
              users users (HTTPException 400 "Insufficient funds for transfer."))
    as [H1 H2].
  split.
  - apply (H2 (ali_to_sara 1234 20000) {| pin := 1234; bank_balance := 10000 |}).
    + reflexivity.
    + reflexivity.
    + reflexivity.
    + exists {| pin := 4321; bank_balance := 15000 |}. reflexivity.
    + simpl. discriminate.
    + reflexivity.
    + reflexivity.
  - apply H1. vm_compute. reflexivity.
Defined.

(** Pins and names survive every request. *)
Lemma step_pins rq σ out n :
  store_step rq σ out → pin <$> out.2 !! n = pin <$> σ !! n.
Proof.
  intros [e He|v Hv|r a v -> Ha Hle|r s c v -> Hs Hc Hne Hle Hlt]; simpl;
    try reflexivity.
  - destruct (decide (DepositRequest.name r = n)) as [<-|Hn].
    + rewrite lookup_insert_eq, Ha. reflexivity.
    + rewrite lookup_insert_ne by done. reflexivity.
  - destruct (decide (BankTransferRequest.recipients_name r = n)) as [<-|Hn].
    + rewrite lookup_insert_eq, Hc. reflexivity.
    + rewrite lookup_insert_ne by done.
      destruct (decide (BankTransferRequest.sender_name r = n)) as [<-|Hn'].
      * rewrite lookup_insert_eq, Hs. reflexivity.
      * rewrite lookup_insert_ne by done. reflexivity.
Qed.

Lemma serve_pins rq σ n : pin <$> serve rq σ !! n = pin <$> σ !! n.
Proof. apply (step_pins rq), handle_step. Qed.

Lemma serve_dom rq σ : dom (serve rq σ) = dom σ.
Proof.
  apply set_eq. intros n. rewrite !elem_of_dom, <- !(fmap_is_Some pin).
  rewrite serve_pins. reflexivity.
Qed.

(** C9: [get_users] and [authenticate] leave the store as it is; a deposit
    that succeeds changes the balance of the named account and nothing
    else; a transfer that succeeds changes the balances of sender and
    recipient and nothing else; and whatever the request and its outcome,
    every name keeps its pin, and no name appears or disappears. *)
Theorem request_frame (σ : gmap string Account) :
  (get_users σ).2 = σ
  ∧ (∀ r, (authenticate r σ).2 = σ)
  ∧ (∀ r v σ', deposit r σ = (inr v, σ') →
       ∀ n, n ≠ DepositRequest.name r → σ' !! n = σ !! n)
  ∧ (∀ r v σ', bank_transfer r σ = (inr v, σ') →
       ∀ n, n ≠ BankTransferRequest.sender_name r →
            n ≠ BankTransferRequest.recipients_name r → σ' !! n = σ !! n)
  ∧ (∀ rq n, pin <$> serve rq σ !! n = pin <$> σ !! n)
  ∧ (∀ rq, dom (serve rq σ) = dom σ).
Proof.
  split_and!.
  - reflexivity.
  - intros r. rewrite authenticate_run.
    destruct (σ !! _) as [a|]; [destruct (pin a =? _)|]; reflexivity.
  - intros r v σ' H n Hn.
    pose proof (handle_step (Deposit r) σ) as Hs.
    rewrite handle_run, H in Hs.
    inversion Hs as [| |r' a v' [= <-] Ha Hle|]; subst; try discriminate.
    rewrite lookup_insert_ne by done. reflexivity.
  - intros r v σ' H n Hn1 Hn2.
    pose proof (handle_step (BankTransfer r) σ) as Hs.
    rewrite handle_run, H in Hs.
    inversion Hs as [| | |r' s c v' [= <-] Hs' Hc Hne Hle Hlt]; subst;
      try discriminate.
    rewrite !lookup_insert_ne by done. reflexivity.
  - intros rq n. apply serve_pins.
  - intros rq. apply serve_dom.
Qed.

Lemma request_frame_witness :
  (deposit {| DepositRequest.name := "Ali";
              DepositRequest.amount_to_deposit := 250.5 |} users).2 !! "Sara"
  = users !! "Sara"
  ∧ (bank_transfer (ali_to_sara 1234 500) users).2 !! "Nobody"
    = users !! "Nobody".
Proof.
  destruct (request_frame users) as (_ & _ & Hd & Ht & _).
  split.
  - eapply (Hd {| DepositRequest.name := "Ali";
                  DepositRequest.amount_to_deposit := 250.5 |}).
    + vm_compute. reflexivity.
    + simpl. discriminate.
  - eapply (Ht (ali_to_sara 1234 500)).
    + vm_compute. reflexivity.
    + simpl. discriminate.
    + simpl. discriminate.
Defined.

(** ** Non-negative balances *)

Lemma users_nonneg : nonneg_balances users.
Proof.
  intros n a. unfold users.
  rewrite lookup_insert. case_decide as H1.
  - intros [= <-]. reflexivity.
  - rewrite lookup_insert. case_decide as H2.
    + intros [= <-]. reflexivity.
    + rewrite lookup_empty. discriminate.
Qed.

Lemma step_nonneg rq σ out :
  store_step rq σ out → finite_amount rq →
  nonneg_balances σ → nonneg_balances out.2.
Proof.
  intros [e He|v Hv|r a v -> Ha Hle|r s c v -> Hs Hc Hne Hle Hlt] Hfin Hσ;
    simpl; try assumption; unfold finite_amount in Hfin; simpl in Hfin.
  - intros n b. rewrite lookup_insert. case_decide as Hn.
    + intros [= <-]. simpl. apply add_nonneg; eauto.
    + apply Hσ.
  - intros n b. rewrite lookup_insert. case_decide as Hn.
    + intros [= <-]. simpl. apply add_nonneg; eauto.
    + rewrite lookup_insert. case_decide as Hn'.
      * intros [= <-]. simpl. apply sub_nonneg; eauto.
      * apply Hσ.
Qed.

Lemma serve_nonneg rq σ :
  finite_amount rq → nonneg_balances σ → nonneg_balances (serve rq σ).
Proof. apply step_nonneg, handle_step. Qed.

Lemma step_no_negative rq σ out :
  store_step rq σ out → no_negative_balance σ → no_negative_balance out.2.
Proof.
  intros [e He|v Hv|r a v -> Ha Hle|r s c v -> Hs Hc Hne Hle Hlt] Hσ;
    simpl; try assumption.
  - intros n b. rewrite lookup_insert. case_decide as Hn.
    + intros [= <-]. simpl. apply add_not_negative; eauto.
    + apply Hσ.
  - intros n b. rewrite lookup_insert. case_decide as Hn.
    + intros [= <-]. simpl. apply add_not_negative; eauto.
    + rewrite lookup_insert. case_decide as Hn'.
      * intros [= <-]. simpl. apply sub_not_negative; eauto.
      * apply Hσ.
Qed.

(** Whatever the amounts are, no balance ever compares below zero: a balance
    that is not [>= 0] is NaN. *)
Lemma never_below_zero (rqs : list Request) :
  no_negative_balance (serve_all rqs users).
Proof.
  assert (no_negative_balance users) as H0.
  { intros n a Ha. pose proof (users_nonneg n a Ha) as H.
    apply (leb_ltb_false _ _ H). }
  revert H0. generalize users as σ.
  induction rqs as [|rq rqs IH]; intros σ Hσ; simpl; [assumption|].
  apply IH. apply (step_no_negative rq σ); [apply handle_step | exact Hσ].
Qed.

(** An infinite amount, which a JSON number such as 1e999 parses to, breaks
    [>= 0] as well: the deposit makes the balance infinite and the transfer
    of an infinite amount out of it leaves NaN. *)
Example nonneg_fails_on_infinity :
  serve_all [Deposit {| DepositRequest.name := "Ali";
                        DepositRequest.amount_to_deposit := infinity |};
             BankTransfer (ali_to_sara 1234 infinity)] users !! "Ali"
  = Some {| pin := 1234; bank_balance := nan |}.
Proof. vm_compute. reflexivity. Qed.

(** C6, as stated, fails: a deposit whose amount is NaN passes the guard
    [amount <= 0] and turns the balance into NaN, which is not [>= 0]. *)
Lemma nonneg_fails_on_nan :
  let rqs := [Deposit {| DepositRequest.name := "Ali";
                         DepositRequest.amount_to_deposit := nan |}] in
  serve_all rqs users !! "Ali" = Some {| pin := 1234; bank_balance := nan |}
  ∧ (0 <=? nan)%float = false
  ∧ ¬ nonneg_balances (serve_all rqs users).
Proof.
  assert (serve_all
            [Deposit {| DepositRequest.name := "Ali";
                        DepositRequest.amount_to_deposit := nan |}] users
          !! "Ali" = Some {| pin := 1234; bank_balance := nan |}) as H
    by (vm_compute; reflexivity).
  split_and!; [exact H | reflexivity |].
  intros Hnn. specialize (Hnn _ _ H). discriminate Hnn.
Qed.

(** C6, amended: starting from the seed store, after any finite sequence of
    requests whose amounts are all finite (neither NaN nor an infinity),
    whether they succeed or fail, every balance is [>= 0]. *)
Theorem nonneg_invariant (rqs : list Request) :
  Forall finite_amount rqs →
  nonneg_balances (serve_all rqs users).
Proof.
  intros Hfin. pose proof users_nonneg as Hσ. revert Hσ.
  generalize users as σ.
  induction Hfin as [|rq rqs Hrq _ IH]; intros σ Hσ; simpl.
  - exact Hσ.
  - apply IH, serve_nonneg; assumption.
Qed.

Lemma nonneg_invariant_witness :
  nonneg_balances
    (serve_all [Deposit {| DepositRequest.name := "Ali";
                           DepositRequest.amount_to_deposit := 0.5 |};
                BankTransfer (ali_to_sara 1234 10000.5);
                Authenticate {| AuthenticateRequest.name := "Sara";
                                AuthenticateRequest.pin_number := 4321 |};
                BankTransfer (ali_to_sara 1234 1);
                ListUsers] users).
Proof.
  apply (nonneg_invariant
           [Deposit {| DepositRequest.name := "Ali";
                       DepositRequest.amount_to_deposit := 0.5 |};
            BankTransfer (ali_to_sara 1234 10000.5);
            Authenticate {| AuthenticateRequest.name := "Sara";
                            AuthenticateRequest.pin_number := 4321 |};
            BankTransfer (ali_to_sara 1234 1);
            ListUsers]).
  repeat constructor.
Defined.

(** * Further properties of the handlers *)

(** ** The credential check *)

(** X1: [_authenticate_user] never raises and never writes; it answers
    [True] exactly when the name is in the store and its pin is the
    candidate pin. *)
Theorem _authenticate_user_spec (name : string) (p : Z) (σ : gmap string Account) :
  ∃ b, _authenticate_user name p σ = (inr b, σ)
       ∧ (b = true ↔ ∃ a, σ !! name = Some a ∧ pin a = p).
Proof.
  rewrite _authenticate_user_run. eexists. split; [reflexivity|].
  destruct (σ !! name) as [a|].
  - rewrite Z.eqb_eq. split.
    + intros Hp. eauto.
    + intros (a' & [= <-] & Hp). exact Hp.
  - split; [discriminate | intros (a' & [=] & _)].
Qed.

(** X4: [authenticate] and [bank_transfer] accept the same credentials: a
    name and pin pass [authenticate] exactly when a transfer sent under them
    is not turned down with the 401, whatever its recipient and amount. *)
Theorem authenticate_agrees_with_transfer (name : string) (p : Z)
    (recipient : string) (x : float) (σ : gmap string Account) :
  succeeds (authenticate {| AuthenticateRequest.name := name;
                            AuthenticateRequest.pin_number := p |} σ)
  ↔ ¬ fails_with Unauthorized
        (bank_transfer {| BankTransferRequest.sender_name := name;
                          BankTransferRequest.sender_pin := p;
                          BankTransferRequest.recipients_name := recipient;
                          BankTransferRequest.amount_to_transfer := x |} σ).
Proof.
  rewrite authenticate_run.
  pose proof (bank_transfer_run
                {| BankTransferRequest.sender_name := name;
                   BankTransferRequest.sender_pin := p;
                   BankTransferRequest.recipients_name := recipient;
                   BankTransferRequest.amount_to_transfer := x |} σ) as Hrun.
  simpl in Hrun. rewrite Hrun. clear Hrun. simpl.
  unfold succeeds, fails_with.
  destruct (σ !! name) as [a|].
  - destruct (pin a =? p); simpl.
    + split; [intros _|eauto].
      destruct (σ !! recipient) as [r|]; [|intros (e & [= <-] & [=])].
      destruct (String.eqb name recipient); [intros (e & [= <-] & [=])|].
      destruct (x <=? 0)%float; [intros (e & [= <-] & [=])|].
      destruct (_ <? x)%float; [intros (e & [= <-] & [=])|].
      intros (e & [=] & _).
    + split; [intros [v [=]]|]. intros H. exfalso. apply H.
      eexists. split; reflexivity.
  - split; [intros [v [=]]|]. intros H. exfalso. apply H.
    eexists. split; reflexivity.
Qed.

(** ** Exactly when a request succeeds *)

(** X2: a deposit succeeds exactly when the account exists and the guard
    [amount <= 0] is false; that lets through every positive amount and
    also NaN. *)
Theorem deposit_succeeds_iff (request : DepositRequest.t) (σ : gmap string Account) :
  succeeds (deposit request σ)
  ↔ is_Some (σ !! DepositRequest.name request)
    ∧ (DepositRequest.amount_to_deposit request <=? 0)%float = false.
Proof.
  rewrite deposit_run. unfold succeeds.
  destruct (σ !! DepositRequest.name request) as [a|].
  - destruct (_ <=? 0)%float; simpl.
    + split; [intros [v [=]] | intros [_ [=]]].
    + split; eauto.
  - split; [intros [v [=]] | intros [[a [=]] _]].
Qed.

(** X3: a transfer succeeds exactly when the sender exists with the given
    pin, the recipient exists under another name, and both guards
    [amount <= 0] and [balance < amount] are false. *)
Theorem transfer_succeeds_iff (request : BankTransferRequest.t)
    (σ : gmap string Account) :
  let sender_name := BankTransferRequest.sender_name request in
  let recipients_name := BankTransferRequest.recipients_name request in
  let amount := BankTransferRequest.amount_to_transfer request in
  succeeds (bank_transfer request σ)
  ↔ ∃ s r,
      σ !! sender_name = Some s
      ∧ pin s = BankTransferRequest.sender_pin request
      ∧ σ !! recipients_name = Some r
      ∧ sender_name ≠ recipients_name
      ∧ (amount <=? 0)%float = false
      ∧ (bank_balance s <? amount)%float = false.
Proof.
  intros sn rn amt.
  pose proof (bank_transfer_run request σ) as Hrun. simpl in Hrun.
  fold sn rn amt in Hrun. rewrite Hrun. clear Hrun. unfold succeeds.
  destruct (σ !! sn) as [s|];
    [|split; [intros [v [=]] | intros (s & r & [=] & _)]].
  destruct (Z.eqb_spec (pin s) (BankTransferRequest.sender_pin request)) as [Hp|Hp];
    simpl; [|split; [intros [v [=]] | intros (s' & r & [= <-] & ? & _); done]].
  destruct (σ !! rn) as [r|];
    [|split; [intros [v [=]] | intros (s' & r & _ & _ & [=] & _)]].
  destruct (String.eqb_spec sn rn) as [He|He];
    [split; [intros [v [=]] | intros (s' & r' & _ & _ & _ & ? & _); done]|].
  destruct (amt <=? 0)%float;
    [split; [intros [v [=]] | intros (s' & r' & _ & _ & _ & _ & [=] & _)]|].
  destruct (bank_balance s <? amt)%float eqn:Hlt; simpl.
  - split; [intros [v [=]]|].
    intros (s' & r' & [= <-] & _ & _ & _ & _ & Hlt'). congruence.
  - split; [intros _|eauto]. exists s, r. split_and!; done.
Qed.

(** ** What a response and a sequence of requests show *)

Lemma account_of_with_name n a : account_of (with_name n a) = a.
Proof. destruct a. reflexivity. Qed.

(** X5: the record a request returns is the account as it is stored once the
    request is done: under the returned name the store holds the returned
    pin and balance. *)
Theorem response_mirrors_store (rq : Request) (σ σ' : gmap string Account)
    (d : UserDetailsResponse.t) :
  handle rq σ = (inr (UserDetails d), σ') →
  σ' !! UserDetailsResponse.name d = Some (account_of d).
Proof.
  rewrite handle_run. destruct rq as [|r|r|r].
  - discriminate.
  - rewrite deposit_run.
    destruct (σ !! DepositRequest.name r) as [a|]; [|discriminate].
    destruct (_ <=? 0)%float; [discriminate|].
    simpl. intros [= <- <-].
    rewrite account_of_with_name. apply lookup_insert_eq.
  - rewrite authenticate_run.
    destruct (σ !! AuthenticateRequest.name r) as [a|] eqn:E; [|discriminate].
    destruct (pin a =? _); [|discriminate].
    intros [= <- <-]. rewrite account_of_with_name. exact E.
  - pose proof (bank_transfer_run r σ) as Hrun. simpl in Hrun. rewrite Hrun.
    destruct (σ !! BankTransferRequest.sender_name r) as [s|]; [|discriminate].
    destruct (pin s =? _); [|discriminate]. simpl.
    destruct (σ !! BankTransferRequest.recipients_name r) as [c|]; [|discriminate].
    destruct (String.eqb _ _); [discriminate|].
    destruct (_ <=? 0)%float; [discriminate|].
    destruct (_ <? _)%float; [discriminate|].
    simpl. intros [= <- <-].
    rewrite account_of_with_name. apply lookup_insert_eq.
Qed.

Lemma response_mirrors_store_witness :
  <["Ali" := {| pin := 1234; bank_balance := 10250.5 |}]> users !! "Ali"
  = Some {| pin := 1234; bank_balance := 10250.5 |}.
Proof.
  apply (response_mirrors_store
           (Deposit {| DepositRequest.name := "Ali";
                       DepositRequest.amount_to_deposit := 250.5 |})
           users
           (<["Ali" := {| pin := 1234; bank_balance := 10250.5 |}]> users)
           {| UserDetailsResponse.name := "Ali";
              UserDetailsResponse.pin := 1234;
              UserDetailsResponse.bank_balance := 10250.5 |}).
  vm_compute. reflexivity.
Defined.

Lemma serve_all_pins rqs σ n :
  pin <$> serve_all rqs σ !! n = pin <$> σ !! n.
Proof.
  revert σ. induction rqs as [|rq rqs IH]; intros σ; simpl; [reflexivity|].
  rewrite IH. apply serve_pins.
Qed.

(** X6: however many requests are served and however they end, the store
    holds the same names with the same pins as at the start: no account is
    created, deleted or re-keyed, and no pin is changed. *)
Theorem accounts_fixed (rqs : list Request) (σ : gmap string Account) :
  dom (serve_all rqs σ) = dom σ
  ∧ ∀ n, pin <$> serve_all rqs σ !! n = pin <$> σ !! n.
Proof.
  split; [|intros n; apply serve_all_pins].
  apply set_eq. intros n. rewrite !elem_of_dom, <- !(fmap_is_Some pin).
  rewrite serve_all_pins. reflexivity.
Qed.

(** X7: no sequence of requests changes who can authenticate: a name and pin
    pass after the sequence exactly when they passed before it. *)
Theorem authentication_stable (rqs : list Request)
    (request : AuthenticateRequest.t) (σ : gmap string Account) :
  succeeds (authenticate request (serve_all rqs σ))
  ↔ succeeds (authenticate request σ).
Proof.
  rewrite !authenticate_run. unfold succeeds.
  pose proof (serve_all_pins rqs σ (AuthenticateRequest.name request)) as Hp.
  destruct (serve_all rqs σ !! _) as [a'|], (σ !! _) as [a|];
    simpl in Hp; try discriminate; [|reflexivity].
  injection Hp as ->.
  destruct (pin a =? _); simpl; split; eauto.
Qed.

Lemma serve_read_only rq σ : is_mutating rq = false → serve rq σ = σ.
Proof.
  unfold serve. rewrite handle_run. destruct rq as [|r|r|r]; try discriminate.
  - reflexivity.
  - intros _. rewrite authenticate_run.
    destruct (σ !! _) as [a|]; [destruct (pin a =? _)|]; reflexivity.
Qed.

(** X8: listing and authenticating leave no trace: dropping every
    [get_users] and [authenticate] request from a sequence gives the same
    final store. *)
Theorem read_only_requests_dropped (rqs : list Request)
    (σ : gmap string Account) :
  serve_all (List.filter is_mutating rqs) σ = serve_all rqs σ.
Proof.
  revert σ. induction rqs as [|rq rqs IH]; intros σ; simpl; [reflexivity|].
  destruct (is_mutating rq) eqn:Hm; simpl.
  - apply IH.
  - rewrite (serve_read_only rq σ Hm). apply IH.
Qed.

Lemma serve_deposit r σ :
  serve (Deposit r) σ =
  match σ !! DepositRequest.name r with
  | Some a =>
      if (DepositRequest.amount_to_deposit r <=? 0)%float then σ
      else <[DepositRequest.name r :=
               set_bank_balance
                 (bank_balance a + DepositRequest.amount_to_deposit r)%float a]> σ
  | None => σ
  end.
Proof.
  unfold serve. rewrite handle_run, deposit_run.
  destruct (σ !! DepositRequest.name r) as [a|]; [|reflexivity].
  destruct (_ <=? 0)%float; reflexivity.
Qed.

(** X12: deposits into two different accounts commute: served in either
    order, whether each succeeds or fails, they leave the same store. *)
Theorem deposits_commute (r1 r2 : DepositRequest.t) (σ : gmap string Account) :
  DepositRequest.name r1 ≠ DepositRequest.name r2 →
  serve (Deposit r2) (serve (Deposit r1) σ)
  = serve (Deposit r1) (serve (Deposit r2) σ).
Proof.
  intros Hne. rewrite (serve_deposit r1 σ), (serve_deposit r2 σ).
  destruct (σ !! DepositRequest.name r1) as [a1|] eqn:E1,
           (σ !! DepositRequest.name r2) as [a2|] eqn:E2;
    try destruct (DepositRequest.amount_to_deposit r1 <=? 0)%float eqn:H1;
    try destruct (DepositRequest.amount_to_deposit r2 <=? 0)%float eqn:H2;
    rewrite !serve_deposit, ?lookup_insert_ne, ?E1, ?E2, ?H1, ?H2 by done;
    try reflexivity.
  apply insert_insert_ne. done.
Qed.

Lemma deposits_commute_witness :
  serve (Deposit {| DepositRequest.name := "Sara";
                    DepositRequest.amount_to_deposit := 2 |})
    (serve (Deposit {| DepositRequest.name := "Ali";
                       DepositRequest.amount_to_deposit := 1 |}) users)
  = serve (Deposit {| DepositRequest.name := "Ali";
                      DepositRequest.amount_to_deposit := 1 |})
      (serve (Deposit {| DepositRequest.name := "Sara";
                         DepositRequest.amount_to_deposit := 2 |}) users).
Proof.
  apply (deposits_commute
           {| DepositRequest.name := "Ali"; DepositRequest.amount_to_deposit := 1 |}
           {| DepositRequest.name := "Sara"; DepositRequest.amount_to_deposit := 2 |}
           users).
  simpl. discriminate.
Defined.

(** ** NaN balances and the full-balance boundary *)

Lemma is_nan_SF (x : float) : is_nan x = true ↔ Prim2SF x = S754_nan.
Proof.
  unfold is_nan. rewrite FloatAxioms.eqb_spec. unfold SFeqb.
  destruct (Prim2SF x) as [s|s| |s m e]; simpl.
  - split; discriminate.
  - destruct s; split; discriminate.
  - split; reflexivity.
  - destruct s; rewrite Z.compare_refl, Pos.compare_cont_refl; split; discriminate.
Qed.

Lemma nan_add_l (b a : float) : is_nan b = true → is_nan (b + a) = true.
Proof.
  rewrite !is_nan_SF, FloatAxioms.add_spec. intros ->. reflexivity.
Qed.

Lemma nan_sub_l (b a : float) : is_nan b = true → is_nan (b - a) = true.
Proof.
  rewrite !is_nan_SF, FloatAxioms.sub_spec. intros ->. reflexivity.
Qed.

Lemma nan_ltb_l (b a : float) : is_nan b = true → (b <? a)%float = false.
Proof.
  rewrite is_nan_SF, FloatAxioms.ltb_spec. intros ->. reflexivity.
Qed.

Lemma step_nan rq σ out n :
  store_step rq σ out → nan_balance_at n σ → nan_balance_at n out.2.
Proof.
  intros [e He|v Hv|r a v -> Ha Hle|r s c v -> Hs Hc Hne Hle Hlt] (b & Hb & Hnan);
    simpl; try (exists b; split; assumption); unfold nan_balance_at.
  - rewrite lookup_insert. case_decide as Hn.
    + subst n. rewrite Ha in Hb. injection Hb as ->.
      eexists. split; [reflexivity|]. simpl. apply nan_add_l, Hnan.
    + eauto.
  - rewrite lookup_insert. case_decide as Hn.
    + subst n. rewrite Hc in Hb. injection Hb as ->.
      eexists. split; [reflexivity|]. simpl. apply nan_add_l, Hnan.
    + rewrite lookup_insert. case_decide as Hn'.
      * subst n. rewrite Hs in Hb. injection Hb as ->.
        eexists. split; [reflexivity|]. simpl. apply nan_sub_l, Hnan.
      * eauto.
Qed.

(** X9: a NaN balance never recovers: once the balance under a name is NaN,
    it is NaN after every further sequence of requests, deposits into the
    account and transfers in and out of it included. *)
Theorem nan_balance_persists (rqs : list Request) (σ : gmap string Account)
    (n : string) :
  nan_balance_at n σ → nan_balance_at n (serve_all rqs σ).
Proof.
  revert σ. induction rqs as [|rq rqs IH]; intros σ Hσ; simpl; [exact Hσ|].
  apply IH. apply (step_nan rq σ); [apply handle_step | exact Hσ].
Qed.

Lemma nan_balance_persists_witness :
  nan_balance_at "Ali"
    (serve_all [Deposit {| DepositRequest.name := "Ali";
                           DepositRequest.amount_to_deposit := 100 |};
                BankTransfer (ali_to_sara 1234 7)]
       (<["Ali" := {| pin := 1234; bank_balance := nan |}]> users)).
Proof.
  apply (nan_balance_persists
           [Deposit {| DepositRequest.name := "Ali";
                       DepositRequest.amount_to_deposit := 100 |};
            BankTransfer (ali_to_sara 1234 7)]
           (<["Ali" := {| pin := 1234; bank_balance := nan |}]> users) "Ali").
  exists {| pin := 1234; bank_balance := nan |}.
  split; reflexivity.
Defined.

(** X10: for a sender whose balance is NaN the funds check [balance < amount]
    never fires: with valid credentials, an existing other recipient and an
    amount that passes [amount <= 0], the transfer succeeds whatever the
    amount is, and credits the recipient. *)
Theorem transfer_from_nan_balance (request : BankTransferRequest.t)
    (σ : gmap string Account) (s r : Account) :
  let sender_name := BankTransferRequest.sender_name request in
  let recipients_name := BankTransferRequest.recipients_name request in
  let amount := BankTransferRequest.amount_to_transfer request in
  σ !! sender_name = Some s →
  pin s = BankTransferRequest.sender_pin request →
  σ !! recipients_name = Some r →
  sender_name ≠ recipients_name →
  (amount <=? 0)%float = false →
  is_nan (bank_balance s) = true →
  ∃ σ',
    bank_transfer request σ =
    (inr {| UserDetailsResponse.name := recipients_name;
            UserDetailsResponse.pin := pin r;
            UserDetailsResponse.bank_balance := (bank_balance r + amount)%float |},
     σ')
    ∧ σ' !! recipients_name =
      Some {| pin := pin r; bank_balance := (bank_balance r + amount)%float |}.
Proof.
  intros sn rn amt Hs Hp Hr Hne Hle Hnan.
  pose proof (bank_transfer_run request σ) as Hrun. simpl in Hrun.
  fold sn rn amt in Hrun. rewrite Hs, Hr, Hle in Hrun.
  apply Z.eqb_eq in Hp. rewrite Hp in Hrun. simpl in Hrun.
  apply String.eqb_neq in Hne. rewrite Hne in Hrun.
  rewrite (nan_ltb_l _ amt Hnan) in Hrun.
  eexists. split; [exact Hrun|]. apply lookup_insert_eq.
Qed.

Lemma transfer_from_nan_balance_witness :
  ∃ σ',
    bank_transfer (ali_to_sara 1234 1000000)
      (<["Ali" := {| pin := 1234; bank_balance := nan |}]> users) =
    (inr {| UserDetailsResponse.name := "Sara";
            UserDetailsResponse.pin := 4321;
            UserDetailsResponse.bank_balance := 1015000 |}, σ')
    ∧ σ' !! "Sara" = Some {| pin := 4321; bank_balance := 1015000 |}.
Proof.
  apply (transfer_from_nan_balance (ali_to_sara 1234 1000000)
           (<["Ali" := {| pin := 1234; bank_balance := nan |}]> users)
           {| pin := 1234; bank_balance := nan |}
           {| pin := 4321; bank_balance := 15000 |}).
  - reflexivity.
  - reflexivity.
  - reflexivity.
  - simpl. discriminate.
  - reflexivity.
  - reflexivity.
Defined.

Lemma sub_diag_finite (x : float) :
  (x <=? 0)%float = false → is_finite x = true →
  (x - x)%float = 0%float ∧ (x <? x)%float = false.
Proof.
  intros Hle Hfin. destruct (positive_finite x Hle Hfin) as (m & e & Ex).
  split.
  - apply Prim2SF_inj. rewrite FloatAxioms.sub_spec, Ex.
    change (Prim2SF 0) with (S754_zero false).
    unfold SF64sub, SFsub. rewrite Z.min_id. unfold shl_align.
    rewrite Z.sub_diag. simpl fst. simpl cond_Zopp. rewrite ?Z.sub_diag.
    reflexivity.
  - rewrite FloatAxioms.ltb_spec, Ex. unfold SFltb. simpl.
    rewrite Z.compare_refl, Pos.compare_cont_refl. reflexivity.
Qed.

(** X11: the boundary of the funds check: a transfer of exactly the sender's
    whole balance, when that is positive and finite, goes through and leaves
    the sender with a balance of exactly zero. *)
Theorem transfer_entire_balance (request : BankTransferRequest.t)
    (σ : gmap string Account) (s r : Account) :
  let sender_name := BankTransferRequest.sender_name request in
  let recipients_name := BankTransferRequest.recipients_name request in
  let amount := BankTransferRequest.amount_to_transfer request in
  σ !! sender_name = Some s →
  pin s = BankTransferRequest.sender_pin request →
  σ !! recipients_name = Some r →
  sender_name ≠ recipients_name →
  amount = bank_balance s →
  (0 <? amount)%float = true →
  is_finite amount = true →
  ∃ σ',
    bank_transfer request σ =
    (inr {| UserDetailsResponse.name := recipients_name;
            UserDetailsResponse.pin := pin r;
            UserDetailsResponse.bank_balance := (bank_balance r + amount)%float |},
     σ')
    ∧ σ' !! sender_name = Some {| pin := pin s; bank_balance := 0 |}.
Proof.
  intros sn rn amt Hs Hp Hr Hne Heq Hpos Hfin.
  pose proof (ltb_leb_false _ _ Hpos) as Hle.
  destruct (sub_diag_finite amt Hle Hfin) as [Hsub Hlt].
  pose proof (bank_transfer_run request σ) as Hrun. simpl in Hrun.
  fold sn rn amt in Hrun. rewrite Hs, Hr, Hle, <- Heq, Hlt, Hsub in Hrun.
  apply Z.eqb_eq in Hp. rewrite Hp in Hrun. simpl in Hrun.
  apply String.eqb_neq in Hne. rewrite Hne in Hrun.
  apply String.eqb_neq in Hne.
  eexists. split; [exact Hrun|].
  rewrite lookup_insert_ne by (intros E; apply Hne; auto).
  apply lookup_insert_eq.
Qed.

Lemma transfer_entire_balance_witness :
  ∃ σ',
    bank_transfer (ali_to_sara 1234 10000) users =
    (inr {| UserDetailsResponse.name := "Sara";
            UserDetailsResponse.pin := 4321;
            UserDetailsResponse.bank_balance := 25000 |}, σ')
    ∧ σ' !! "Ali" = Some {| pin := 1234; bank_balance := 0 |}.
Proof.
  apply (transfer_entire_balance (ali_to_sara 1234 10000) users
           {| pin := 1234; bank_balance := 10000 |}
           {| pin := 4321; bank_balance := 15000 |}).
  - reflexivity.
  - reflexivity.
  - reflexivity.
  - simpl. discriminate.
  - reflexivity.
  - reflexivity.
  - reflexivity.
Defined.

(** X13: from any store without a balance below zero, and whatever the
    amounts are, NaN and the infinities included, no sequence of requests
    produces a balance that compares below zero. *)
Theorem no_negative_preserved (rqs : list Request) (σ : gmap string Account) :
  no_negative_balance σ → no_negative_balance (serve_all rqs σ).
Proof.
  revert σ. induction rqs as [|rq rqs IH]; intros σ Hσ; simpl; [exact Hσ|].
  apply IH. apply (step_no_negative rq σ); [apply handle_step | exact Hσ].
Qed.

Lemma no_negative_preserved_witness :
  no_negative_balance
    (serve_all [Deposit {| DepositRequest.name := "Ali";
                           DepositRequest.amount_to_deposit := infinity |};
                BankTransfer (ali_to_sara 1234 infinity);
                Deposit {| DepositRequest.name := "Sara";
                           DepositRequest.amount_to_deposit := nan |}] users).
Proof.
  apply (no_negative_preserved
           [Deposit {| DepositRequest.name := "Ali";
                       DepositRequest.amount_to_deposit := infinity |};
            BankTransfer (ali_to_sara 1234 infinity);
            Deposit {| DepositRequest.name := "Sara";
                       DepositRequest.amount_to_deposit := nan |}] users).
  intros n a. unfold users.
  rewrite lookup_insert. case_decide.
  - intros [= <-]. reflexivity.
  - rewrite lookup_insert. case_decide.
    + intros [= <-]. reflexivity.
    + rewrite lookup_empty. discriminate.
Defined.

(** X14: [balance >= 0] is an invariant of the handlers from any store, not
    only from the seed: if every balance is [>= 0] and every amount in the
    sequence is finite, every balance is [>= 0] afterwards. *)
Theorem nonneg_preserved (rqs : list Request) (σ : gmap string Account) :
  Forall finite_amount rqs → nonneg_balances σ →
  nonneg_balances (serve_all rqs σ).
Proof.
  intros Hfin. revert σ.
  induction Hfin as [|rq rqs Hrq _ IH]; intros σ Hσ; simpl; [exact Hσ|].
  apply IH. apply (step_nonneg rq σ); [apply handle_step | exact Hrq | exact Hσ].
Qed.

Lemma nonneg_preserved_witness :
  nonneg_balances
    (serve_all [BankTransfer (ali_to_sara 1 0.5);
                Deposit {| DepositRequest.name := "Sara";
                           DepositRequest.amount_to_deposit := 3 |}]
       (<["Ali" := {| pin := 1; bank_balance := 0.5 |}]>
        (<["Sara" := {| pin := 2; bank_balance := infinity |}]> ∅))).
Proof.
  apply (nonneg_preserved
           [BankTransfer (ali_to_sara 1 0.5);
            Deposit {| DepositRequest.name := "Sara";
                       DepositRequest.amount_to_deposit := 3 |}]
           (<["Ali" := {| pin := 1; bank_balance := 0.5 |}]>
            (<["Sara" := {| pin := 2; bank_balance := infinity |}]> ∅))).
  - repeat constructor.
  - intros n a. rewrite lookup_insert. case_decide.
    + intros [= <-]. reflexivity.
    + rewrite lookup_insert. case_decide.
      * intros [= <-]. reflexivity.
      * rewrite lookup_empty. discriminate.
Defined.
